(** * svg_builder: the [svg.builder] record model and the editor core

    Part I embeds [models/svg_builder.py]: the field declarations of
    [SvgBuilder], [create_svg] and [update_svg], over an explicit table of
    stored rows.  Part II holds the Scene Graph and the Command/History
    engine of the front-end editor. *)

From Stdlib Require Import QArith.
From stdpp Require Import gmap strings list.

Open Scope Z_scope.

(** ** Part I: the record model *)

Module Model.

(** A [Char] or [Text] value: a string, or the null value that Python
    shows as [False]/[None]. *)
Definition text : Type := option string.

(** What a call can raise.  [TypeError missing]: the Python call left out
    the positional parameters [missing].  [NotNullViolation f]: a row was
    written with no value in the required field [f].
    [IntegerOutOfRange f]: the value for the [Integer] field [f] does not
    fit its 32-bit column.  [MissingError]: a record written to has no
    row. *)
Inductive error : Type :=
  | TypeError (missing : list string)
  | NotNullViolation (field : string)
  | IntegerOutOfRange (field : string)
  | MissingError.

Inductive result (A : Type) : Type :=
  | Ok (a : A)
  | Err (e : error).
Arguments Ok {A} a.
Arguments Err {A} e.

Definition is_ok {A : Type} (r : result A) : bool :=
  match r with Ok _ => true | Err _ => false end.

(** A field declaration, [fields.Char(string=..., required=..., default=...)]. *)
Record field (V : Type) : Type := Field {
  f_string : string;
  f_required : bool;
  f_default : option V
}.
Arguments Field {V} _ _ _.
Arguments f_string {V} _.
Arguments f_required {V} _.
Arguments f_default {V} _.

(** svg_builder.py, lines 9-13. *)
Definition name_field : field text :=
  Field "Name" true None.
Definition svg_content_field : field text :=
  Field "SVG Content" false None.
Definition width_field : field Z :=
  Field "Width" false (Some 800).
Definition height_field : field Z :=
  Field "Height" false (Some 600).
Definition background_color_field : field text :=
  Field "Background Color" false (Some (Some "#ffffff"%string)).

(** One stored row of [svg.builder]: the five declared fields, and the
    log-access columns every [models.Model] carries ([create_date] is
    the column [_order] sorts by, line 7). *)
Record SvgBuilder : Type := {
  name : text;
  svg_content : text;
  width : Z;
  height : Z;
  background_color : text;
  create_uid : nat;
  create_date : Z;
  write_uid : nat;
  write_date : Z
}.

(** The dict handed to [create]: a key is absent ([None]) or bound. *)
Record vals : Type := {
  v_name : option text;
  v_svg_content : option text;
  v_width : option Z;
  v_height : option Z;
  v_background_color : option text
}.

(** The environment of a call: the user, the time of the transaction,
    the table of rows and the id sequence. *)
Record Env : Type := {
  uid : nat;
  now : Z;
  rows : gmap nat SvgBuilder;
  next_id : nat
}.

Definition empty_env : Env :=
  {| uid := 2%nat; now := 0; rows := ∅; next_id := 1%nat |}.

(** A recordset: the ids it holds, in order. *)
Definition recordset : Type := list nat.

(** The value [create] stores in a field: the one bound in the dict,
    else the declared default, else the field type's null. *)
Definition fill {V : Type} (null : V) (f : field V) (given : option V) : V :=
  match given with
  | Some v => v
  | None => default null (f_default f)
  end.

(** The row [create] writes: the values of the dict, and the log-access
    columns stamped with the user and the time of the call. *)
Definition new_row (env : Env) (v : vals) : SvgBuilder :=
  {| name := fill None name_field (v_name v);
     svg_content := fill None svg_content_field (v_svg_content v);
     width := fill 0 width_field (v_width v);
     height := fill 0 height_field (v_height v);
     background_color := fill None background_color_field (v_background_color v);
     create_uid := uid env;
     create_date := now env;
     write_uid := uid env;
     write_date := now env |}.

(** The range of the 32-bit column behind an [Integer] field. *)
Definition int4_min : Z := -2147483648.
Definition int4_max : Z := 2147483647.

Definition in_int4 (v : Z) : bool := (int4_min <=? v) && (v <=? int4_max).

(** An [Integer] value against the range of its column. *)
Definition check_integer (key : string) (v : Z) : option error :=
  if in_int4 v then None else Some (IntegerOutOfRange key).

(** [required] of a [Char]/[Text] field against the value to store. *)
Definition check_required (f : field text) (key : string) (v : text) : option error :=
  if f_required f then
    match v with
    | None => Some (NotNullViolation key)
    | Some _ => None
    end
  else None.

(** The first check that fails. *)
Definition first_error (checks : list (option error)) : option error :=
  foldr (λ c rest, match c with Some e => Some e | None => rest end) None checks.

(** The ORM's [create]: the values are brought to their column types,
    the required fields are checked, one row is inserted under the next
    id, and the singleton recordset of that id is returned. *)
Definition create (env : Env) (v : vals) : result (Env * recordset) :=
  let r := new_row env v in
  match first_error
          [check_integer "width" (width r);
           check_integer "height" (height r);
           check_required name_field "name" (name r);
           check_required svg_content_field "svg_content" (svg_content r);
           check_required background_color_field "background_color"
             (background_color r)] with
  | Some e => Err e
  | None =>
    Ok ({| uid := uid env; now := now env;
           rows := <[next_id env := r]> (rows env);
           next_id := S (next_id env) |},
        [next_id env])
  end.

(** svg_builder.py, lines 15-24.  A parameter is [None] when the call
    leaves it out: [name] and [svg_content] have no default, the other
    three have. *)
Definition create_svg (env : Env) (name svg_content : option text)
    (width height : option Z) (background_color : option text)
    : result (Env * recordset) :=
  match name, svg_content with
  | None, None => Err (TypeError ["name"; "svg_content"]%string)
  | None, Some _ => Err (TypeError ["name"%string])
  | Some _, None => Err (TypeError ["svg_content"%string])
  | Some name, Some svg_content =>
    let width := default 800 width in
    let height := default 600 height in
    let background_color := default (Some "#ffffff"%string) background_color in
    create env {| v_name := Some name;
                  v_svg_content := Some svg_content;
                  v_width := Some width;
                  v_height := Some height;
                  v_background_color := Some background_color |}
  end.

(** [svg_content = c] on one row. *)
Definition set_svg_content (c : text) (r : SvgBuilder) : SvgBuilder :=
  {| name := name r;
     svg_content := c;
     width := width r;
     height := height r;
     background_color := background_color r;
     create_uid := create_uid r;
     create_date := create_date r;
     write_uid := write_uid r;
     write_date := write_date r |}.

(** The write stamp on one row: the user and the time of the call. *)
Definition stamp (env : Env) (r : SvgBuilder) : SvgBuilder :=
  {| name := name r;
     svg_content := svg_content r;
     width := width r;
     height := height r;
     background_color := background_color r;
     create_uid := create_uid r;
     create_date := create_date r;
     write_uid := uid env;
     write_date := now env |}.

(** Every id of the recordset has a row. *)
Definition existing (env : Env) (self : recordset) : bool :=
  forallb (λ i, bool_decide (is_Some (rows env !! i))) self.

(** [self.svg_content = svg_content]: field assignment on a recordset
    writes the value, with the write stamp, on each of its records; on
    the empty recordset nothing is written; a record without a row makes
    the write raise [MissingError], and nothing is written. *)
Definition assign_svg_content (env : Env) (c : text) (self : recordset)
    : result Env :=
  if existing env self then
    Ok {| uid := uid env; now := now env;
          rows := foldr (λ i acc, alter (λ r, stamp env (set_svg_content c r)) i acc)
                        (rows env) self;
          next_id := next_id env |}
  else Err MissingError.

(** svg_builder.py, lines 26-29. *)
Definition update_svg (env : Env) (self : recordset) (c : text)
    : result (Env * bool) :=
  match assign_svg_content env c self with
  | Ok env' => Ok (env', true)
  | Err e => Err e
  end.

(** The dimension invariant of the spec's Document, on one row and on
    the whole table. *)
Definition dims_positive (r : SvgBuilder) : Prop := 0 < width r ∧ 0 < height r.

Definition all_dims_positive (env : Env) : Prop :=
  ∀ i r, rows env !! i = Some r → dims_positive r.

End Model.

(** ** Part II: the editor core

    The manifest lists the editor's scripts ([static/src/js/svg_builder.js],
    [static/src/js/svg_components.js]), which are not among the sources.
    The Scene Graph and the Command/History engine they are to implement
    are modelled below from sections 3, 4.2, 4.3, 6 and 7 of the
    specification. *)

Module Scene.

(** Modelled from the spec: the affine transform of the Geometry Model
    (section 4.1) of the editor scripts, as the six entries of its
    matrix. *)
Record transform : Type := {
  m_a : Q; m_b : Q; m_c : Q; m_d : Q; m_e : Q; m_f : Q
}.

(** Modelled from the spec: the style attributes every Element carries
    (section 3): fill color, stroke color, stroke width, opacity and
    transform. *)
Record style : Type := {
  fill : string;
  stroke : string;
  stroke_width : Q;
  opacity : Q;
  xform : transform
}.

(** Modelled from the spec: the geometry fields of the leaf variants of
    Element (section 3). *)
Inductive geometry : Type :=
  | Rect (x y w h : Q)
  | Circle (cx cy r : Q)
  | Ellipse (cx cy rx ry : Q)
  | Path (d : string)
  | Text (x y : Q) (content : string).

(** Modelled from the spec: Element (section 3), a leaf shape or a group
    owning the ordered sequence of its children; the z-index of a child is
    its position in that sequence. *)
#[warnings="-register-all"]
Inductive Element : Type :=
  | Shape (i : nat) (g : geometry) (s : style)
  | Group (i : nat) (s : style) (children : list Element).

(** Modelled from the spec: the unique stable id of an Element
    (section 3). *)
Definition elem_id (e : Element) : nat :=
  match e with
  | Shape i _ _ => i
  | Group i _ _ => i
  end.

(** Modelled from the spec: the ordered sequence of child Elements a
    group owns (section 3); a leaf has none. *)
Definition children (e : Element) : list Element :=
  match e with
  | Shape _ _ _ => []
  | Group _ _ cs => cs
  end.

(** Modelled from the spec: [traverse()] of the Scene Graph
    (section 4.2), the pre-order sequence of the Elements at and below one
    element. *)
Fixpoint traverse_elem (e : Element) : list Element :=
  e :: match e with
       | Shape _ _ _ => []
       | Group _ _ cs => cs ≫= traverse_elem
       end.

(** Modelled from the spec: [traverse()] (section 4.2) on the ordered
    sequence of root Elements of the Document. *)
Definition traverse (roots : list Element) : list Element :=
  roots ≫= traverse_elem.

(** Modelled from the spec: the ids in use across the whole tree
    (section 4.2), in pre-order. *)
Definition ids (roots : list Element) : list nat :=
  elem_id <$> traverse roots.

(** Modelled from the spec: [find(id)] (section 4.2), the first Element
    in pre-order that carries the id. *)
Definition find (i : nat) (roots : list Element) : option Element :=
  snd <$> list_find (λ e, elem_id e = i) (traverse roots).

(** Modelled from the spec: the error taxonomy of section 7 as far as the
    Scene Graph and the History engine raise it; [UnknownElement],
    [DuplicateId] and [NotAGroup] name the rejections that section 4.2
    implies without naming them. *)
Inductive error : Type :=
  | CyclicParentError
  | UnknownElement (i : nat)
  | DuplicateId
  | NotAGroup (i : nat)
  | NothingToUndo
  | NothingToRedo.

(** Modelled from the spec: the operation kinds of the change
    notification (section 6). *)
Inductive op_kind : Type := OpInsert | OpRemove | OpUpdate | OpReorder.

(** Modelled from the spec: the change notification of the render
    boundary (section 6), element id and operation kind. *)
Record notification : Type := {
  n_id : nat;
  n_kind : op_kind
}.

(** Modelled from the spec: what a mutation of the Scene Graph reports,
    the one notification it emits (section 4.2) or the error it is
    rejected with (section 7). *)
Inductive outcome : Type :=
  | Done (n : notification)
  | Rejected (e : error).

(** Modelled from the spec: z-order as the index position in a sequence
    (section 4.2): [x] goes to position [index], later siblings shift. *)
Definition insert_at (index : nat) (x : Element) (l : list Element) : list Element :=
  take index l ++ x :: drop index l.

(** Modelled from the spec: the removal of section 4.2 inside one
    element: every subtree of id [i] below it is taken out, later
    siblings shift. *)
Fixpoint prune (i : nat) (e : Element) : Element :=
  match e with
  | Shape _ _ _ => e
  | Group j s cs => Group j s (filter (λ c, elem_id c ≠ i) (prune i <$> cs))
  end.

(** Modelled from the spec: the removal of section 4.2 on the whole
    graph. *)
Definition prune_all (i : nat) (roots : list Element) : list Element :=
  filter (λ c, elem_id c ≠ i) (prune i <$> roots).

(** Modelled from the spec: the insertion of section 4.2 inside one
    element: [x] goes to position [index] among the children of the
    group of id [p]. *)
Fixpoint insert_under (p : nat) (x : Element) (index : nat) (e : Element) : Element :=
  match e with
  | Shape _ _ _ => e
  | Group j s cs =>
    if decide (j = p) then Group j s (insert_at index x cs)
    else Group j s (insert_under p x index <$> cs)
  end.

(** Modelled from the spec: the placement shared by [insert] and [move]
    (section 4.2): [x] goes under [parent], or among the roots when the
    parent id is null. *)
Definition place (parent : option nat) (x : Element) (index : nat)
    (roots : list Element) : list Element + error :=
  match parent with
  | None => inl (insert_at index x roots)
  | Some p =>
    match find p roots with
    | None => inr (UnknownElement p)
    | Some (Shape _ _ _) => inr (NotAGroup p)
    | Some (Group _ _ _) => inl (insert_under p x index <$> roots)
    end
  end.

(** Modelled from the spec: [insert(parentId|null, element, index)] of
    the Scene Graph (section 4.2).  Ids stay unique across the tree; a rejected call
    leaves the graph as it was (section 7). *)
Definition insert (roots : list Element) (parent : option nat) (x : Element)
    (index : nat) : list Element * outcome :=
  if decide (NoDup (ids [x] ++ ids roots)) then
    match place parent x index roots with
    | inl roots' => (roots', Done {| n_id := elem_id x; n_kind := OpInsert |})
    | inr e => (roots, Rejected e)
    end
  else (roots, Rejected DuplicateId).

(** Modelled from the spec: [remove(id)] of the Scene Graph
    (section 4.2). *)
Definition remove (roots : list Element) (i : nat) : list Element * outcome :=
  match find i roots with
  | None => (roots, Rejected (UnknownElement i))
  | Some _ => (prune_all i roots, Done {| n_id := i; n_kind := OpRemove |})
  end.

(** Modelled from the spec: the cycle check of [move] (section 4.2): the
    target parent is the moved node [x] or one of its descendants. *)
Definition cyclic (x : Element) (parent : option nat) : bool :=
  match parent with
  | None => false
  | Some p => bool_decide (p ∈ ids [x])
  end.

(** Modelled from the spec: [move(id, newParentId, newIndex)] of the
    Scene Graph (section 4.2).  The move fails with [CyclicParentError] when the new
    parent is the moved node or lies below it; a rejected call leaves the
    graph as it was. *)
Definition move (roots : list Element) (i : nat) (parent : option nat)
    (index : nat) : list Element * outcome :=
  match find i roots with
  | None => (roots, Rejected (UnknownElement i))
  | Some x =>
    if cyclic x parent then (roots, Rejected CyclicParentError)
    else
      match place parent x index (prune_all i roots) with
      | inl roots' => (roots', Done {| n_id := i; n_kind := OpReorder |})
      | inr e => (roots, Rejected e)
      end
  end.

(** Modelled from the spec: the tree of section 3, [c] is one of the
    children the group owns. *)
Inductive child_of : Element → Element → Prop :=
  | ChildOf (i : nat) (s : style) (cs : list Element) (c : Element) :
      c ∈ cs → child_of c (Group i s cs).

(** Modelled from the spec: [d] is a descendant of [e] (section 4.2), a
    child of [e] or of one of its descendants. *)
Definition descendant_of (d e : Element) : Prop := tc child_of d e.

(** Modelled from the spec: [x] is an Element of the Document
    (section 3), a root or a descendant of a root. *)
Definition in_graph (roots : list Element) (x : Element) : Prop :=
  ∃ r, r ∈ roots ∧ rtc child_of x r.

(** Modelled from the spec: the Scene Graph invariant of section 4.2,
    ids are unique across the whole tree. *)
Definition unique_ids (roots : list Element) : Prop := NoDup (ids roots).

End Scene.

Module History.
Import Scene.

(** Modelled from the spec: Command (section 3) of the History engine
    in the editor scripts, the immutable record of
    target element ids, prior-state snapshot, new-state snapshot and kind.
    A snapshot is the Scene Graph content, so that a command is
    self-contained (section 4.3). *)
Record Command : Type := {
  targets : list nat;
  prior : list Element;
  next : list Element;
  kind : op_kind
}.

(** Modelled from the spec: History (section 3), the undo and redo stacks
    (most recent command first) and the configured maximum depth
    ([None]: unbounded, the default). *)
Record History : Type := {
  undo_stack : list Command;
  redo_stack : list Command;
  capacity : option nat
}.

(** Modelled from the spec: the durable state of the editor
    (section 4.6), the Scene Graph and the History. *)
Record Editor : Type := {
  graph : list Element;
  history : History
}.

(** Modelled from the spec: the editor on a new blank Document
    (section 3), with empty stacks. *)
Definition new_editor (capacity : option nat) : Editor :=
  {| graph := [];
     history := {| undo_stack := []; redo_stack := []; capacity := capacity |} |}.

(** Modelled from the spec: the push on the undo stack (section 4.3); once
    the maximum depth is exceeded the oldest entries are evicted. *)
Definition push (capacity : option nat) (c : Command) (stack : list Command)
    : list Command :=
  match capacity with
  | None => c :: stack
  | Some k => take k (c :: stack)
  end.

(** Modelled from the spec: [execute(command)] (section 4.3) applies the
    forward transition, pushes the command on the undo stack and clears
    the redo stack. *)
Definition execute (c : Command) (ed : Editor) : Editor :=
  let h := history ed in
  {| graph := next c;
     history := {| undo_stack := push (capacity h) c (undo_stack h);
                   redo_stack := [];
                   capacity := capacity h |} |}.

(** Modelled from the spec: [undo()] (section 4.3) pops the most recent
    command, restores its prior-state snapshot and pushes it on the redo
    stack; with an empty stack it reports [NothingToUndo] and changes
    nothing. *)
Definition undo (ed : Editor) : Editor * option error :=
  let h := history ed in
  match undo_stack h with
  | [] => (ed, Some NothingToUndo)
  | c :: rest =>
    ({| graph := prior c;
        history := {| undo_stack := rest;
                      redo_stack := c :: redo_stack h;
                      capacity := capacity h |} |}, None)
  end.

(** Modelled from the spec: [redo()] (section 4.3), symmetric to [undo]. *)
Definition redo (ed : Editor) : Editor * option error :=
  let h := history ed in
  match redo_stack h with
  | [] => (ed, Some NothingToRedo)
  | c :: rest =>
    ({| graph := next c;
        history := {| undo_stack := push (capacity h) c (undo_stack h);
                      redo_stack := rest;
                      capacity := capacity h |} |}, None)
  end.

(** Modelled from the spec: executing a sequence of commands
    (section 8), first to last. *)
Definition execute_all (cs : list Command) (ed : Editor) : Editor :=
  foldl (λ ed c, execute c ed) ed cs.

(** Modelled from the spec: calling [undo()] [n] times (section 8). *)
Definition undo_times (n : nat) (ed : Editor) : Editor :=
  Nat.iter n (λ ed, fst (undo ed)) ed.

(** Modelled from the spec: the mutations the Editor Controller turns into
    commands (sections 2 and 4.6), one per call of the Scene Graph API. *)
Inductive request : Type :=
  | ReqInsert (parent : option nat) (x : Element) (index : nat)
  | ReqRemove (i : nat)
  | ReqMove (i : nat) (parent : option nat) (index : nat).

(** Modelled from the spec: the Scene Graph call a mutation stands for
    (section 4.2). *)
Definition apply_request (roots : list Element) (r : request)
    : list Element * outcome :=
  match r with
  | ReqInsert parent x index => insert roots parent x index
  | ReqRemove i => remove roots i
  | ReqMove i parent index => move roots i parent index
  end.

(** Modelled from the spec: command construction (section 2): the prior
    snapshot is the graph the command is built on, the new snapshot is
    what the mutation makes of it; a rejected mutation yields no command
    (section 7). *)
Definition make_command (roots : list Element) (r : request) : Command + error :=
  match apply_request roots r with
  | (roots', Done n) =>
    inl {| targets := [n_id n]; prior := roots; next := roots'; kind := n_kind n |}
  | (_, Rejected e) => inr e
  end.

(** Modelled from the spec: the control flow of section 2, the
    controller constructs the command and the engine executes it; a
    rejected mutation leaves the editor as it was. *)
Definition issue (r : request) (ed : Editor) : Editor * option error :=
  match make_command (graph ed) r with
  | inl c => (execute c ed, None)
  | inr e => (ed, Some e)
  end.

(** Modelled from the spec: the prior-state snapshots of section 3 along
    a sequence: each command was built on the graph it is executed on,
    the graph left by the one before. *)
Fixpoint built_on (g : list Element) (cs : list Command) : Prop :=
  match cs with
  | [] => True
  | c :: cs' => prior c = g ∧ built_on (next c) cs'
  end.

(** Modelled from the spec: the prior-state snapshot of section 3 at the
    start of a sequence: the first command was built on graph [g]. *)
Definition starts_from (g : list Element) (cs : list Command) : Prop :=
  match cs with
  | [] => True
  | c :: _ => prior c = g
  end.

(** Modelled from the spec: the configurable maximum depth of
    section 4.3 is unbounded or at least [n]. *)
Definition holds (h : History) (n : nat) : Prop :=
  match capacity h with
  | None => True
  | Some k => (n ≤ k)%nat
  end.

End History.

(** Sample elements and commands, after the scenarios of section 8 of
    the specification. *)
Module Samples.
Import Scene History.

Definition identity : transform :=
  {| m_a := 1 # 1; m_b := 0 # 1; m_c := 0 # 1; m_d := 1 # 1; m_e := 0 # 1; m_f := 0 # 1 |}.

Definition plain : style :=
  {| fill := "#000000"; stroke := "none"; stroke_width := 1 # 1;
     opacity := 1 # 1; xform := identity |}.

(** The rect of the first scenario, at (10,10,100,50). *)
Definition rect (i : nat) : Element :=
  Shape i (Rect (10 # 1) (10 # 1) (100 # 1) (50 # 1)) plain.

(** A group holding a group holding a rect, next to an empty group. *)
Definition nested : list Element :=
  [Group 1 plain [Group 2 plain [rect 3]]; Group 4 plain []].

(** The graph of the rects [1 .. n], and the command that appends rect
    [n] to the rects before it. *)
Definition rects (n : nat) : list Element := rect <$> seq 1 n.

Definition append_rect (n : nat) : Command :=
  {| targets := [n]; prior := rects (n - 1); next := rects n; kind := OpInsert |}.

Definition five_inserts : list Command := append_rect <$> seq 1 5.

(** An editor with unbounded history whose graph holds rect 9. *)
Definition with_rect_9 : Editor :=
  {| graph := [rect 9];
     history := {| undo_stack := []; redo_stack := []; capacity := None |} |}.

End Samples.

(** ** Sequences of calls on the record model *)

Module Calls.
Import Model.

(** The ids in the table were all handed out by the id sequence: each is
    below the next id. *)
Definition ids_below_next (env : Env) : Prop :=
  ∀ i, is_Some (rows env !! i) → (i < next_id env)%nat.

(** One call of a method of [SvgBuilder]: [create_svg] with the
    arguments it is given, or [update_svg] on a recordset. *)
Inductive call : Type :=
  | CreateSvg (name svg_content : option text) (width height : option Z)
      (background_color : option text)
  | UpdateSvg (self : recordset) (svg_content : text).

(** The environment after a call; a call that raises leaves it as it
    was. *)
Definition after (env : Env) (k : call) : Env :=
  match k with
  | CreateSvg name svg_content width height background_color =>
    match create_svg env name svg_content width height background_color with
    | Ok (env', _) => env'
    | Err _ => env
    end
  | UpdateSvg self svg_content =>
    match update_svg env self svg_content with
    | Ok (env', _) => env'
    | Err _ => env
    end
  end.

Definition run (env : Env) (ks : list call) : Env := foldl after env ks.

(** The dimensions a [create_svg] call stores are positive. *)
Definition stores_positive_dimensions (k : call) : Prop :=
  match k with
  | CreateSvg _ _ width height _ => 0 < default 800 width ∧ 0 < default 600 height
  | UpdateSvg _ _ => True
  end.

(** A table with two stored records, for examples. *)
Definition logo_row : SvgBuilder :=
  {| name := Some "logo"%string; svg_content := None; width := 800; height := 600;
     background_color := Some "#ffffff"%string;
     create_uid := 2%nat; create_date := 100; write_uid := 2%nat; write_date := 100 |}.

Definition icon_row : SvgBuilder :=
  {| name := Some "icon"%string; svg_content := Some "<svg/>"%string;
     width := 16; height := 16; background_color := None;
     create_uid := 2%nat; create_date := 200; write_uid := 6%nat; write_date := 300 |}.

Definition two_rows : Env :=
  {| uid := 7%nat; now := 400;
     rows := {[ 1%nat := logo_row; 2%nat := icon_row ]};
     next_id := 3%nat |}.

End Calls.

(** * Properties of the record model *)

Section ModelFacts.
Import Model Calls.

Local Open Scope string_scope.

Implicit Types (env : Env) (self : recordset) (r : SvgBuilder).

Lemma in_int4_spec v : in_int4 v = true ↔ (int4_min ≤ v ≤ int4_max)%Z.
Proof.
  unfold in_int4. rewrite andb_true_iff, !Z.leb_le. tauto.
Qed.

Lemma env_eq env env' :
  uid env = uid env' → now env = now env' →
  rows env = rows env' → next_id env = next_id env' → env = env'.
Proof. destruct env, env'; simpl; by intros -> -> -> ->. Qed.

(** A call that passes a non-null name, some content and dimensions in
    the range of their columns goes through, and stores this row under
    the next id. *)
Lemma create_svg_row env s c w h bg :
  in_int4 (default 800 w) = true →
  in_int4 (default 600 h) = true →
  create_svg env (Some (Some s)) (Some c) w h bg
  = Ok ({| uid := uid env; now := now env;
           rows := <[next_id env :=
                      {| name := Some s;
                         svg_content := c;
                         width := default 800 w;
                         height := default 600 h;
                         background_color := default (Some "#ffffff") bg;
                         create_uid := uid env;
                         create_date := now env;
                         write_uid := uid env;
                         write_date := now env |}]> (rows env);
           next_id := S (next_id env) |},
        [next_id env]).
Proof.
  intros Hw Hh.
  unfold create_svg, create, first_error, check_integer. simpl.
  by rewrite Hw, Hh.
Qed.

Lemma create_svg_null_name env c w h bg :
  in_int4 (default 800 w) = true →
  in_int4 (default 600 h) = true →
  create_svg env (Some None) (Some c) w h bg = Err (NotNullViolation "name").
Proof.
  intros Hw Hh.
  unfold create_svg, create, first_error, check_integer. simpl.
  by rewrite Hw, Hh.
Qed.

Lemma create_svg_width_out_of_range env n c w h bg :
  in_int4 (default 800 w) = false →
  create_svg env (Some n) (Some c) w h bg = Err (IntegerOutOfRange "width").
Proof.
  intros Hw.
  unfold create_svg, create, first_error, check_integer. simpl.
  by rewrite Hw.
Qed.

Lemma create_svg_height_out_of_range env n c w h bg :
  in_int4 (default 800 w) = true →
  in_int4 (default 600 h) = false →
  create_svg env (Some n) (Some c) w h bg = Err (IntegerOutOfRange "height").
Proof.
  intros Hw Hh.
  unfold create_svg, create, first_error, check_integer. simpl.
  by rewrite Hw, Hh.
Qed.

(** Whatever [create_svg] returns, it got a non-null name, a content
    argument and dimensions in the range of their columns. *)
Lemma create_svg_ok_inv env n c w h bg out :
  create_svg env n c w h bg = Ok out →
  ∃ s t, n = Some (Some s) ∧ c = Some t ∧
         in_int4 (default 800 w) = true ∧ in_int4 (default 600 h) = true.
Proof.
  destruct n as [n|], c as [t|]; try discriminate.
  destruct (in_int4 (default 800 w)) eqn:Hw.
  - destruct (in_int4 (default 600 h)) eqn:Hh.
    + destruct n as [s|].
      * intros _. by exists s, t.
      * by rewrite create_svg_null_name.
    + by rewrite create_svg_height_out_of_range.
  - by rewrite create_svg_width_out_of_range.
Qed.

Lemma existing_spec env self :
  existing env self = true ↔ ∀ i, i ∈ self → is_Some (rows env !! i).
Proof.
  unfold existing. induction self as [|j self IH]; simpl.
  - split; [|done]. intros _ i Hin. by apply elem_of_nil in Hin.
  - rewrite andb_true_iff, bool_decide_eq_true, IH. split.
    + intros [Hj Hall] i [->|Hin]%elem_of_cons; [done|by apply Hall].
    + intros Hall. split; [apply Hall, list_elem_of_here|].
      intros i Hin. by apply Hall, list_elem_of_further.
Qed.


(** The rows after a field assignment, row by row. *)
Lemma assigned_rows_lookup env c self (m : gmap nat SvgBuilder) i :
  foldr (λ j acc, alter (λ r, stamp env (set_svg_content c r)) j acc) m self !! i
  = if decide (i ∈ self) then (λ r, stamp env (set_svg_content c r)) <$> m !! i
    else m !! i.
Proof.
  induction self as [|j self IH]; [done|].
  change (foldr ?f m (j :: self)) with (f j (foldr f m self)).
  rewrite lookup_alter.
  destruct (decide (j = i)) as [->|Hne]; rewrite IH.
  - rewrite (decide_True (P := i ∈ i :: self)) by apply list_elem_of_here.
    case_decide; [|done].
    by destruct (m !! i).
  - case_decide as Hin.
    + by rewrite decide_True by by apply list_elem_of_further.
    + rewrite decide_False; [done|].
      intros [?|?]%elem_of_cons; [congruence|done].
Qed.

(** [update_svg] on a recordset whose records all have rows. *)
Lemma update_svg_existing env self c :
  existing env self = true →
  update_svg env self c
  = Ok ({| uid := uid env; now := now env;
           rows := foldr (λ j acc, alter (λ r, stamp env (set_svg_content c r)) j acc)
                         (rows env) self;
           next_id := next_id env |}, true).
Proof. intros Hex. unfold update_svg, assign_svg_content. by rewrite Hex. Qed.

Lemma update_svg_missing env self c :
  existing env self = false → update_svg env self c = Err MissingError.
Proof. intros Hex. unfold update_svg, assign_svg_content. by rewrite Hex. Qed.

Lemma update_svg_ok_inv env self c env' b :
  update_svg env self c = Ok (env', b) →
  existing env self = true ∧ b = true ∧
  uid env' = uid env ∧ now env' = now env ∧ next_id env' = next_id env ∧
  ∀ i, rows env' !! i
       = if decide (i ∈ self)
         then (λ r, stamp env (set_svg_content c r)) <$> rows env !! i
         else rows env !! i.
Proof.
  destruct (existing env self) eqn:Hex.
  - rewrite update_svg_existing by done. intros [= <- <-].
    repeat split. intros i. simpl. apply assigned_rows_lookup.
  - by rewrite update_svg_missing.
Qed.

(** The table after an [update_svg] call, whether it returned or raised. *)
Lemma after_update_svg_lookup env self c i :
  rows (after env (UpdateSvg self c)) !! i
  = if existing env self && bool_decide (i ∈ self)
    then (λ r, stamp env (set_svg_content c r)) <$> rows env !! i
    else rows env !! i.
Proof.
  unfold after. destruct (existing env self) eqn:Hex.
  - rewrite update_svg_existing by done.
    cbn [rows andb]. rewrite assigned_rows_lookup.
    destruct (decide (i ∈ self)) as [Hin|Hin].
    + by rewrite bool_decide_eq_true_2.
    + by rewrite bool_decide_eq_false_2.
  - by rewrite update_svg_missing.
Qed.

Lemma after_update_svg_context env self c :
  uid (after env (UpdateSvg self c)) = uid env ∧
  now (after env (UpdateSvg self c)) = now env ∧
  next_id (after env (UpdateSvg self c)) = next_id env.
Proof.
  simpl. destruct (existing env self) eqn:Hex.
  - by rewrite update_svg_existing.
  - by rewrite update_svg_missing.
Qed.

Lemma after_update_svg_dims env self c i r' :
  rows (after env (UpdateSvg self c)) !! i = Some r' →
  ∃ r, rows env !! i = Some r ∧ width r' = width r ∧ height r' = height r.
Proof.
  rewrite after_update_svg_lookup.
  destruct (existing env self && bool_decide (i ∈ self)); [|by eauto].
  destruct (rows env !! i) as [r|]; simpl; [|done].
  intros [= <-]. by exists r.
Qed.

Lemma update_svg_keeps_dims_positive env self c :
  all_dims_positive env → all_dims_positive (after env (UpdateSvg self c)).
Proof.
  intros Hinv i r' (r & Hr & Hw & Hh)%after_update_svg_dims.
  destruct (Hinv i r Hr) as [? ?].
  split; congruence.
Qed.

Example create_svg_defaults :
  create_svg empty_env (Some (Some "logo")) (Some None) None None None
  = Ok ({| uid := 2%nat; now := 0;
           rows := {[ 1%nat := {| name := Some "logo"; svg_content := None;
                                  width := 800; height := 600;
                                  background_color := Some "#ffffff";
                                  create_uid := 2%nat; create_date := 0;
                                  write_uid := 2%nat; write_date := 0 |} ]};
           next_id := 2%nat |}, [1%nat]).
Proof. reflexivity. Qed.

(** C1, as the claim states it, fails: [create_svg] called with width 0
    and height -5 is not rejected and stores a record whose dimensions
    are not positive. *)
Lemma create_svg_accepts_nonpositive_dimensions :
  ∃ env' r,
    create_svg empty_env (Some (Some "logo")) (Some None) (Some 0) (Some (-5)) None
    = Ok (env', [1%nat]) ∧
    rows env' !! 1%nat = Some r ∧
    ¬ dims_positive r.
Proof.
  eexists _, _. split; [reflexivity|]. split; [reflexivity|].
  unfold dims_positive. simpl. lia.
Qed.

(** C1, amended: [create_svg] checks no sign.  With a non-null name and a
    content argument it accepts every width and height in the 32-bit
    range of the [Integer] columns, positive or not, and stores them as
    given (800 and 600 when left out), so the table keeps all dimensions
    positive exactly when the stored ones are; [update_svg] keeps them
    positive for every recordset and content. *)
Theorem create_svg_dimensions_unchecked env s c w h bg self c' :
  all_dims_positive env →
  in_int4 (default 800 w) = true →
  in_int4 (default 600 h) = true →
  ∃ env' r,
    create_svg env (Some (Some s)) (Some c) w h bg = Ok (env', [next_id env]) ∧
    rows env' !! next_id env = Some r ∧
    width r = default 800 w ∧
    height r = default 600 h ∧
    (all_dims_positive env' ↔ 0 < default 800 w ∧ 0 < default 600 h) ∧
    (all_dims_positive env' → all_dims_positive (after env' (UpdateSvg self c'))) ∧
    all_dims_positive (after env (UpdateSvg self c')).
Proof.
  intros Hinv Hw Hh. eexists _, _.
  split; [by apply create_svg_row|].
  split; [simpl; apply lookup_insert_eq|].
  split; [done|]. split; [done|].
  split; [|split].
  - split.
    + intros Hall.
      eapply (Hall (next_id env) (Build_SvgBuilder _ _ _ _ _ _ _ _ _)).
      simpl. apply lookup_insert_eq.
    + intros Hpos i r. simpl. rewrite lookup_insert.
      case_decide; [intros [= <-]; exact Hpos | apply Hinv].
  - apply update_svg_keeps_dims_positive.
  - by apply update_svg_keeps_dims_positive.
Qed.

Lemma create_svg_dimensions_unchecked_witness :
  ∃ env' r,
    create_svg two_rows (Some (Some "banner")) (Some (Some "<svg/>"))
      (Some (-640)) None None = Ok (env', [3%nat]) ∧
    rows env' !! 3%nat = Some r ∧
    width r = -640 ∧
    height r = 600 ∧
    (all_dims_positive env' ↔ 0 < -640 ∧ 0 < 600) ∧
    (all_dims_positive env' → all_dims_positive (after env' (UpdateSvg [1%nat] None))) ∧
    all_dims_positive (after two_rows (UpdateSvg [1%nat] None)).
Proof.
  apply (create_svg_dimensions_unchecked two_rows "banner" (Some "<svg/>")
           (Some (-640)) None None [1%nat] None).
  - intros i r. unfold two_rows, dims_positive. simpl.
    destruct (decide (i = 1%nat)) as [->|H1].
    + rewrite lookup_insert_eq. intros [= <-]. simpl. lia.
    + rewrite lookup_insert_ne by done.
      destruct (decide (i = 2%nat)) as [->|H2].
      * rewrite lookup_singleton_eq. intros [= <-]. simpl. lia.
      * by rewrite lookup_singleton_ne.
  - reflexivity.
  - reflexivity.
Defined.

(** C2: with width, height and background color left out, [create_svg]
    stores width 800, height 600 and background color '#ffffff'; so does
    [create] on a dict without these keys, from the defaults the three
    fields declare. *)
Theorem defaults_800_600_white env s c :
  (∃ env' r,
     create_svg env (Some (Some s)) (Some c) None None None = Ok (env', [next_id env]) ∧
     rows env' !! next_id env = Some r ∧
     width r = 800 ∧ height r = 600 ∧ background_color r = Some "#ffffff") ∧
  (∃ env' r,
     create env {| v_name := Some (Some s); v_svg_content := Some c;
                   v_width := None; v_height := None;
                   v_background_color := None |} = Ok (env', [next_id env]) ∧
     rows env' !! next_id env = Some r ∧
     width r = 800 ∧ height r = 600 ∧ background_color r = Some "#ffffff") ∧
  f_default width_field = Some 800 ∧
  f_default height_field = Some 600 ∧
  f_default background_color_field = Some (Some "#ffffff").
Proof.
  split; [|split; [|done]].
  - eexists _, _. split; [by apply create_svg_row|].
    split; [simpl; apply lookup_insert_eq|done].
  - eexists _, _. split; [reflexivity|].
    split; [simpl; apply lookup_insert_eq|done].
Qed.

(** C3: the record [create_svg] creates holds, field by field, exactly
    the five arguments of the call (and the stamps of the call in its
    log-access columns). *)
Theorem create_svg_stores_arguments env n c w h bg env' rs :
  create_svg env (Some n) (Some c) (Some w) (Some h) (Some bg) = Ok (env', rs) →
  ∃ i, rs = [i] ∧
       rows env' !! i = Some {| name := n; svg_content := c; width := w;
                                height := h; background_color := bg;
                                create_uid := uid env; create_date := now env;
                                write_uid := uid env; write_date := now env |}.
Proof.
  intros Hcall.
  destruct (create_svg_ok_inv _ _ _ _ _ _ _ Hcall)
    as (s & t & [= ->] & [= ->] & Hw & Hh).
  rewrite create_svg_row in Hcall by done. injection Hcall as <- <-.
  exists (next_id env). split; [done|].
  simpl. apply lookup_insert_eq.
Qed.

Lemma create_svg_stores_arguments_witness :
  ∃ i, [1%nat] = [i] ∧
       rows {| uid := 2%nat; now := 0;
               rows := {[ 1%nat := {| name := Some "logo";
                                      svg_content := Some "<svg/>";
                                      width := 320; height := 200;
                                      background_color := Some "#000000";
                                      create_uid := 2%nat; create_date := 0;
                                      write_uid := 2%nat; write_date := 0 |} ]};
               next_id := 2%nat |} !! i
       = Some {| name := Some "logo"; svg_content := Some "<svg/>"; width := 320;
                 height := 200; background_color := Some "#000000";
                 create_uid := uid empty_env; create_date := now empty_env;
                 write_uid := uid empty_env; write_date := now empty_env |}.
Proof.
  apply (create_svg_stores_arguments empty_env (Some "logo") (Some "<svg/>")
           320 200 (Some "#000000")).
  reflexivity.
Defined.

(** C7: on every record of the recordset, [update_svg] sets [svg_content]
    to the value passed and leaves [name], [width], [height] and
    [background_color] as they were: so it is whenever the call returns,
    and the call does return when each record of the recordset has a
    row. *)
Theorem update_svg_sets_content_only env self c i r :
  rows env !! i = Some r →
  i ∈ self →
  (∀ env' b, update_svg env self c = Ok (env', b) →
     ∃ r', rows env' !! i = Some r' ∧
           svg_content r' = c ∧
           name r' = name r ∧
           width r' = width r ∧
           height r' = height r ∧
           background_color r' = background_color r) ∧
  (existing env self = true → ∃ env', update_svg env self c = Ok (env', true)).
Proof.
  intros Hr Hin. split.
  - intros env' b (_ & _ & _ & _ & _ & Hrows)%update_svg_ok_inv.
    exists (stamp env (set_svg_content c r)).
    split; [|done].
    by rewrite Hrows, decide_True, Hr by done.
  - intros Hex. eexists. by apply update_svg_existing.
Qed.

Lemma update_svg_sets_content_only_witness :
  (∀ env' b, update_svg two_rows [2%nat; 1%nat] (Some "<svg/>") = Ok (env', b) →
     ∃ r', rows env' !! 1%nat = Some r' ∧
           svg_content r' = Some "<svg/>" ∧
           name r' = name logo_row ∧
           width r' = width logo_row ∧
           height r' = height logo_row ∧
           background_color r' = background_color logo_row) ∧
  (existing two_rows [2%nat; 1%nat] = true →
   ∃ env', update_svg two_rows [2%nat; 1%nat] (Some "<svg/>") = Ok (env', true)).
Proof.
  apply (update_svg_sets_content_only two_rows [2%nat; 1%nat] (Some "<svg/>")
           1%nat logo_row).
  - reflexivity.
  - apply list_elem_of_further, list_elem_of_here.
Defined.

Example update_svg_on_two_rows :
  update_svg two_rows [1%nat] (Some "<svg/>")
  = Ok ({| uid := 7%nat; now := 400;
           rows := {[ 1%nat := {| name := Some "logo"; svg_content := Some "<svg/>";
                                  width := 800; height := 600;
                                  background_color := Some "#ffffff";
                                  create_uid := 2%nat; create_date := 100;
                                  write_uid := 7%nat; write_date := 400 |};
                      2%nat := icon_row ]};
           next_id := 3%nat |}, true).
Proof. reflexivity. Qed.



(** C9, as the claim states it, fails: with a name and no [svg_content]
    argument the call does not go through, the parameter has no default;
    and with both passed a width beyond the 32-bit range of its column
    makes the call fail. *)
Lemma create_svg_content_argument_required :
  create_svg empty_env (Some (Some "logo")) None None None None
  = Err (TypeError ["svg_content"]) ∧
  create_svg empty_env (Some (Some "logo")) (Some None) (Some 2147483648) None None
  = Err (IntegerOutOfRange "width").
Proof. split; reflexivity. Qed.

(** C9, amended: [create_svg] goes through exactly when the call passes a
    non-null name, passes [svg_content], and the width and height to
    store lie in the 32-bit range of their columns; the content passed
    may be null or the empty string, and no value of the background
    color makes the call fail. *)
Theorem create_svg_succeeds_iff env n c w h bg :
  (is_ok (create_svg env n c w h bg) = true
   ↔ (∃ s, n = Some (Some s)) ∧ (∃ t, c = Some t) ∧
     (int4_min ≤ default 800 w ≤ int4_max)%Z ∧
     (int4_min ≤ default 600 h ≤ int4_max)%Z) ∧
  (∀ s, (int4_min ≤ default 800 w ≤ int4_max)%Z →
        (int4_min ≤ default 600 h ≤ int4_max)%Z →
        is_ok (create_svg env (Some (Some s)) (Some None) w h bg) = true) ∧
  (∀ s, (int4_min ≤ default 800 w ≤ int4_max)%Z →
        (int4_min ≤ default 600 h ≤ int4_max)%Z →
        is_ok (create_svg env (Some (Some s)) (Some (Some "")) w h bg) = true).
Proof.
  split; [|split; intros s Hw%in_int4_spec Hh%in_int4_spec;
            by rewrite create_svg_row].
  rewrite <- !in_int4_spec. split.
  - destruct (create_svg env n c w h bg) as [out|e] eqn:Hcall; [|done].
    intros _. apply create_svg_ok_inv in Hcall as (s & t & -> & -> & ? & ?).
    eauto 10.
  - intros ([s ->] & [t ->] & Hw & Hh). by rewrite create_svg_row.
Qed.

End ModelFacts.

(** * Properties of the Scene Graph *)

Section SceneFacts.
Import Scene.

Implicit Types (roots : list Element) (x y : Element).

(** Everything at or below an element shows up in its traversal. *)
Lemma rtc_child_of_traverse_elem x r :
  rtc child_of x r → x ∈ traverse_elem r.
Proof.
  revert r. apply rtc_ind_r.
  - destruct x; apply list_elem_of_here.
  - intros y z _ Hchild IH. destruct Hchild as [i s cs c Hc].
    simpl. apply list_elem_of_further, list_elem_of_bind. eauto.
Qed.

Lemma in_graph_traverse roots x : in_graph roots x → x ∈ traverse roots.
Proof.
  intros (r & Hr & Hx). apply list_elem_of_bind.
  exists r. split; [by apply rtc_child_of_traverse_elem|done].
Qed.

(** With distinct keys, the search by key lands on the element itself. *)
Lemma list_find_unique_key {A : Type} (key : A → nat) (l : list A) (x : A) :
  NoDup (key <$> l) → x ∈ l →
  snd <$> list_find (λ e, key e = key x) l = Some x.
Proof.
  intros Hnd (i & Hi)%list_elem_of_lookup.
  assert (list_find (λ e, key e = key x) l = Some (i, x)) as ->; [|done].
  apply list_find_Some. split; [done|]. split; [done|].
  intros j z Hj Hlt Hkey.
  assert (j = i); [|lia].
  apply (NoDup_lookup (key <$> l) j i (key x)); [done| |].
  - by rewrite list_lookup_fmap, Hj, <- Hkey.
  - by rewrite list_lookup_fmap, Hi.
Qed.

Lemma find_in_graph roots x :
  unique_ids roots → in_graph roots x → find (elem_id x) roots = Some x.
Proof.
  intros Hnd Hx. unfold find.
  apply list_find_unique_key; [done|by apply in_graph_traverse].
Qed.

Lemma descendant_of_ids x y : descendant_of y x → elem_id y ∈ ids [x].
Proof.
  intros Hd%tc_rtc%rtc_child_of_traverse_elem.
  unfold ids, traverse. apply list_elem_of_fmap_2.
  apply list_elem_of_bind. exists x. split; [done|apply list_elem_of_here].
Qed.

(** A descendant is never the element itself: the tree has no cycles. *)
Example descendant_in_nested :
  descendant_of (Samples.rect 3) (Group 1 Samples.plain [Group 2 Samples.plain [Samples.rect 3]]).
Proof.
  eapply tc_l; [|apply tc_once]; constructor; apply list_elem_of_here.
Qed.

Example insert_under_group :
  insert Samples.nested (Some 4%nat) (Samples.rect 5) 0
  = ([Group 1 Samples.plain [Group 2 Samples.plain [Samples.rect 3]];
      Group 4 Samples.plain [Samples.rect 5]],
     Done {| n_id := 5; n_kind := OpInsert |}).
Proof. reflexivity. Qed.

Example insert_duplicate_id :
  insert Samples.nested None (Samples.rect 3) 0
  = (Samples.nested, Rejected DuplicateId).
Proof. reflexivity. Qed.

Example insert_under_shape :
  insert Samples.nested (Some 3%nat) (Samples.rect 5) 0
  = (Samples.nested, Rejected (NotAGroup 3)).
Proof. reflexivity. Qed.

Example remove_inner_group :
  remove Samples.nested 2
  = ([Group 1 Samples.plain []; Group 4 Samples.plain []],
     Done {| n_id := 2; n_kind := OpRemove |}).
Proof. reflexivity. Qed.

Example move_under_itself :
  move Samples.nested 1 (Some 1%nat) 0
  = (Samples.nested, Rejected CyclicParentError).
Proof. reflexivity. Qed.

(** A rejected mutation hands back the graph it was given. *)
Lemma rejected_leaves_graph (r : History.request) roots e :
  (History.apply_request roots r).2 = Rejected e →
  (History.apply_request roots r).1 = roots.
Proof.
  destruct r as [parent x index|i|i parent index]; simpl.
  - unfold insert. case_decide; [|done].
    by destruct (place parent x index roots).
  - unfold remove. by destruct (find i roots).
  - unfold move. destruct (find i roots) as [x|]; [|done].
    destruct (cyclic x parent); [done|].
    by destruct (place parent x index (prune_all i roots)).
Qed.

(** A move that makes no cycle goes through: the group 2 of the sample
    graph, with the rect inside, goes into the empty group 4. *)
Example move_to_other_group :
  move Samples.nested 2 (Some 4%nat) 0
  = ([Group 1 Samples.plain [];
      Group 4 Samples.plain [Group 2 Samples.plain [Samples.rect 3]]],
     Done {| n_id := 2; n_kind := OpReorder |}).
Proof. reflexivity. Qed.

(** C6: moving an element of the graph under one of its descendants is
    rejected with [CyclicParentError], and the graph handed back is the
    graph before the call. *)
Theorem move_under_descendant_rejected roots x y index :
  unique_ids roots →
  in_graph roots x →
  descendant_of y x →
  move roots (elem_id x) (Some (elem_id y)) index
  = (roots, Rejected CyclicParentError).
Proof.
  intros Hnd Hx Hd. unfold move.
  rewrite (find_in_graph roots x Hnd Hx). simpl.
  by rewrite bool_decide_eq_true_2 by by apply descendant_of_ids.
Qed.

Lemma move_under_descendant_rejected_witness :
  move Samples.nested 1 (Some 3%nat) 0 = (Samples.nested, Rejected CyclicParentError).
Proof.
  apply (move_under_descendant_rejected Samples.nested
           (Group 1 Samples.plain [Group 2 Samples.plain [Samples.rect 3]])
           (Samples.rect 3) 0%nat).
  - unfold unique_ids. apply (bool_decide_unpack _). vm_compute. exact I.
  - exists (Group 1 Samples.plain [Group 2 Samples.plain [Samples.rect 3]]).
    split; [apply list_elem_of_here|apply rtc_refl].
  - eapply tc_l; [|apply tc_once]; constructor; apply list_elem_of_here.
Defined.

End SceneFacts.

(** * Properties of the Command/History engine *)

Section HistoryFacts.
Import Scene History.

Implicit Types (ed : Editor) (c : Command) (cs stack : list Command).

Lemma execute_all_snoc cs c ed :
  execute_all (cs ++ [c]) ed = execute c (execute_all cs ed).
Proof. unfold execute_all. by rewrite foldl_app. Qed.

Lemma execute_all_capacity cs ed :
  capacity (history (execute_all cs ed)) = capacity (history ed).
Proof.
  induction cs as [|c cs IH] using rev_ind; [done|].
  by rewrite execute_all_snoc.
Qed.

Lemma push_take k c stack :
  take k (c :: take k stack) = take k (c :: stack).
Proof.
  destruct k as [|k]; [done|]. simpl. f_equal.
  rewrite take_take. f_equal. lia.
Qed.

(** The undo stack after a run of commands: the commands, most recent
    first, on top of the old stack, cut at the configured depth. *)
Lemma execute_all_undo_stack cs ed :
  cs ≠ [] →
  undo_stack (history (execute_all cs ed))
  = match capacity (history ed) with
    | None => reverse cs ++ undo_stack (history ed)
    | Some k => take k (reverse cs ++ undo_stack (history ed))
    end.
Proof.
  induction cs as [|c cs IH] using rev_ind; [done|]. intros _.
  rewrite execute_all_snoc, reverse_snoc. simpl.
  rewrite execute_all_capacity.
  destruct (decide (cs = [])) as [->|Hne]; [done|].
  rewrite (IH Hne).
  destruct (capacity (history ed)) as [k|]; simpl; [|done].
  apply push_take.
Qed.

(** A run that fits the configured depth is whole on the stack. *)
Lemma execute_all_undo_stack_holds cs ed :
  holds (history ed) (length cs) →
  ∃ rest, undo_stack (history (execute_all cs ed)) = reverse cs ++ rest.
Proof.
  intros Hfit.
  destruct (decide (cs = [])) as [->|Hne]; [by eexists|].
  rewrite (execute_all_undo_stack _ _ Hne).
  unfold holds in Hfit.
  destruct (capacity (history ed)) as [k|]; [|by eexists].
  rewrite take_app_ge by by rewrite length_reverse.
  by eexists.
Qed.

Lemma undo_times_succ n ed :
  undo_times (S n) ed = undo_times n (undo ed).1.
Proof. unfold undo_times. by rewrite Nat.iter_succ_r. Qed.

(** Undoing as many times as there are commands on top of the stack
    leaves the prior-state snapshot of the oldest of them. *)
Lemma undo_times_pops cs c rest ed :
  undo_stack (history ed) = cs ++ c :: rest →
  graph (undo_times (S (length cs)) ed) = prior c.
Proof.
  revert ed. induction cs as [|c' cs IH]; intros ed Hstack.
  - unfold undo_times, undo. simpl in *. by rewrite Hstack.
  - rewrite undo_times_succ.
    apply IH. unfold undo. simpl in *. by rewrite Hstack.
Qed.

Lemma make_command_prior roots r c :
  make_command roots r = inl c → prior c = roots.
Proof.
  unfold make_command.
  destruct (apply_request roots r) as [roots' [n|e]]; [|done].
  by intros [= <-].
Qed.

(** What [undo] takes back, [redo] puts back: the new-state snapshot of
    the command on top of the undo stack. *)
Lemma redo_undo_graph ed c stack :
  undo_stack (history ed) = c :: stack →
  graph (redo (undo ed).1).1 = next c.
Proof. unfold undo. by intros ->. Qed.

(** Section 8, first scenario: empty document, insert a rect, undo: the
    Scene Graph has zero elements. *)
Example insert_then_undo :
  let ed := (issue (ReqInsert None (Samples.rect 1) 0) (new_editor None)).1 in
  graph ed = [Samples.rect 1] ∧ graph (undo ed).1 = [].
Proof. done. Qed.

(** Section 8, last scenario: capacity 3, five commands: the undo stack
    holds 3, and the fourth undo finds nothing. *)
Example capacity_three_five_commands :
  let ed := execute_all Samples.five_inserts (new_editor (Some 3%nat)) in
  length (undo_stack (history ed)) = 3%nat ∧
  (undo (undo_times 3 ed)).2 = Some NothingToUndo.
Proof. done. Qed.

Lemma built_on_starts_from (g : list Element) cs :
  built_on g cs → starts_from g cs.
Proof. destruct cs; [done|]. by intros [? _]. Qed.

(** C5, as the claim states it, fails.  With the history depth set to 3,
    five commands executed from the empty graph, each built on the graph
    it is executed on, and five undos leave two rects in the graph.  With
    unbounded history, one command whose prior-state snapshot is the
    empty graph, executed on a graph that holds a rect, and one undo
    leave the empty graph. *)
Lemma undo_all_not_initial :
  (let ed := new_editor (Some 3%nat) in
   built_on (graph ed) Samples.five_inserts ∧
   graph (undo_times 5 (execute_all Samples.five_inserts ed))
   = [Samples.rect 1; Samples.rect 2] ∧
   graph (undo_times (length Samples.five_inserts)
            (execute_all Samples.five_inserts ed)) ≠ graph ed) ∧
  (let ed := Samples.with_rect_9 in
   let cs := [Samples.append_rect 1] in
   graph (undo_times (length cs) (execute_all cs ed)) = [] ∧
   graph (undo_times (length cs) (execute_all cs ed)) ≠ graph ed).
Proof. done. Qed.

(** C5, amended: for every sequence of N commands whose first command
    has the initial Scene Graph as its prior-state snapshot, and a
    history whose depth is unbounded or at least N, executing the N
    commands and then undoing N times gives back exactly the initial
    Scene Graph. *)
Theorem undo_all_restores_graph ed cs :
  starts_from (graph ed) cs →
  holds (history ed) (length cs) →
  graph (undo_times (length cs) (execute_all cs ed)) = graph ed.
Proof.
  intros Hprior Hfit.
  destruct cs as [|c cs]; [done|]. simpl in Hprior.
  destruct (execute_all_undo_stack_holds _ _ Hfit) as [rest Hstack].
  rewrite reverse_cons, <- (assoc_L (++)) in Hstack. simpl in Hstack.
  change (length (c :: cs)) with (S (length cs)).
  rewrite <- Hprior, <- (length_reverse cs).
  by apply (undo_times_pops _ _ rest).
Qed.

Lemma undo_all_restores_graph_witness :
  graph (undo_times 5 (execute_all Samples.five_inserts (new_editor (Some 5%nat))))
  = [].
Proof.
  apply (undo_all_restores_graph (new_editor (Some 5%nat)) Samples.five_inserts).
  - done.
  - vm_compute. lia.
Defined.

End HistoryFacts.

(** * Further properties of [create_svg] and [update_svg] *)

Section ModelCalls.
Import Model Calls.

Local Open Scope string_scope.

Implicit Types (env : Env) (self : recordset) (r : SvgBuilder) (c : text).

Lemma existing_after_update_svg env self self' c :
  existing (after env (UpdateSvg self c)) self' = existing env self'.
Proof.
  apply eq_true_iff_eq. rewrite !existing_spec.
  assert (∀ i, is_Some (rows (after env (UpdateSvg self c)) !! i)
               ↔ is_Some (rows env !! i)) as Hdom.
  { intros i. rewrite after_update_svg_lookup.
    destruct (existing env self && bool_decide (i ∈ self)); [|done].
    apply fmap_is_Some. }
  split; intros Hall i Hin; by apply Hdom, Hall.
Qed.

(** X1: the last [update_svg] wins: after a call that wrote [c1] (or
    raised), writing [c2] on the same recordset gives the result, and
    leaves the table, that writing [c2] alone gives; in particular
    writing the same content twice is writing it once. *)
Theorem update_svg_last_write_wins env self c1 c2 :
  update_svg (after env (UpdateSvg self c1)) self c2 = update_svg env self c2.
Proof.
  destruct (existing env self) eqn:Hex.
  - rewrite !update_svg_existing
      by (by rewrite ?existing_after_update_svg).
    destruct (after_update_svg_context env self c1) as (Hu & Hn & Hi).
    do 2 f_equal. apply env_eq; cbn [uid now rows next_id]; [done..| |done].
    apply map_eq; intros i.
    rewrite !assigned_rows_lookup, after_update_svg_lookup, Hex.
    case_decide as Hin; [|by rewrite bool_decide_eq_false_2].
    rewrite bool_decide_eq_true_2 by done. cbn [andb].
    destruct (rows env !! i) as [r|]; [|done]. cbn [fmap option_fmap option_map].
    f_equal. unfold stamp. by rewrite Hu, Hn.
  - rewrite !update_svg_missing; [done|done|].
    by rewrite existing_after_update_svg.
Qed.

(** X2: [update_svg] neither creates nor deletes a record, leaves the id
    sequence alone, and leaves every record outside the recordset exactly
    as it was. *)
Theorem update_svg_touches_only_self env self c :
  dom (rows (after env (UpdateSvg self c))) = dom (rows env) ∧
  next_id (after env (UpdateSvg self c)) = next_id env ∧
  ∀ i, i ∉ self → rows (after env (UpdateSvg self c)) !! i = rows env !! i.
Proof.
  split; [|split; [apply after_update_svg_context|]].
  - apply set_eq; intros i. rewrite !elem_of_dom, after_update_svg_lookup.
    destruct (existing env self && bool_decide (i ∈ self)); [|done].
    apply fmap_is_Some.
  - intros i Hout. rewrite after_update_svg_lookup.
    by rewrite bool_decide_eq_false_2, andb_false_r.
Qed.

(** X3: when every record of the recordset has a row that already holds
    the content passed, [update_svg] returns [True] and changes no
    declared field and no creation stamp: on the records of the
    recordset it renews the write stamp, with the user and the time of
    the call, and every other record is as it was. *)
Theorem update_svg_same_content env self c :
  existing env self = true →
  (∀ i r, i ∈ self → rows env !! i = Some r → svg_content r = c) →
  ∃ env',
    update_svg env self c = Ok (env', true) ∧
    (∀ i, i ∉ self → rows env' !! i = rows env !! i) ∧
    (∀ i r, i ∈ self → rows env !! i = Some r →
       rows env' !! i
       = Some {| name := name r; svg_content := svg_content r;
                 width := width r; height := height r;
                 background_color := background_color r;
                 create_uid := create_uid r; create_date := create_date r;
                 write_uid := uid env; write_date := now env |}).
Proof.
  intros Hex Hsame. eexists. split; [by apply update_svg_existing|].
  simpl. split.
  - intros i Hout. by rewrite assigned_rows_lookup, decide_False.
  - intros i r Hin Hr.
    rewrite assigned_rows_lookup, decide_True, Hr by done. simpl.
    by rewrite <- (Hsame i r Hin Hr).
Qed.

Lemma update_svg_same_content_witness :
  ∃ env',
    update_svg two_rows [2%nat] (Some "<svg/>") = Ok (env', true) ∧
    (∀ i, i ∉ [2%nat] → rows env' !! i = rows two_rows !! i) ∧
    (∀ i r, i ∈ [2%nat] → rows two_rows !! i = Some r →
       rows env' !! i
       = Some {| name := name r; svg_content := svg_content r;
                 width := width r; height := height r;
                 background_color := background_color r;
                 create_uid := create_uid r; create_date := create_date r;
                 write_uid := uid two_rows; write_date := now two_rows |}).
Proof.
  apply (update_svg_same_content two_rows [2%nat] (Some "<svg/>")).
  - reflexivity.
  - intros i r ->%list_elem_of_singleton. by intros [= <-].
Defined.

(** X4: [update_svg] depends on which records the recordset holds, not
    on their order nor on repetitions. *)
Theorem update_svg_same_records env self1 self2 c :
  (∀ i, i ∈ self1 ↔ i ∈ self2) →
  update_svg env self1 c = update_svg env self2 c.
Proof.
  intros Hsame.
  assert (existing env self1 = existing env self2) as Hex.
  { apply eq_true_iff_eq. rewrite !existing_spec.
    split; intros Hall i Hin; by apply Hall, Hsame. }
  destruct (existing env self2) eqn:Hex2.
  - rewrite !update_svg_existing by done.
    do 2 f_equal. apply env_eq; simpl; [done..| |done].
    apply map_eq; intros i. rewrite !assigned_rows_lookup.
    destruct (decide (i ∈ self1)) as [H1|H1].
    + by rewrite decide_True by by apply Hsame.
    + rewrite decide_False; [done|]. by rewrite <- Hsame.
  - by rewrite !update_svg_missing.
Qed.

Lemma update_svg_same_records_witness :
  update_svg two_rows [1%nat; 2%nat; 1%nat] (Some "<g/>")
  = update_svg two_rows [2%nat; 1%nat] (Some "<g/>").
Proof.
  apply (update_svg_same_records two_rows [1%nat; 2%nat; 1%nat] [2%nat; 1%nat]
           (Some "<g/>")).
  intros i. rewrite !elem_of_cons, elem_of_nil. tauto.
Defined.

(** The hypothesis of X4 matters on this table: another recordset gives
    another table. *)
Example update_svg_other_records :
  update_svg two_rows [1%nat; 2%nat; 1%nat] (Some "<g/>")
  ≠ update_svg two_rows [2%nat] (Some "<g/>").
Proof.
  intros Heq. apply (f_equal (λ o, match o with
                                   | Ok (e, _) => svg_content <$> rows e !! 1%nat
                                   | Err _ => None
                                   end)) in Heq.
  vm_compute in Heq. discriminate.
Qed.



(** The hypothesis of X5 matters on this table: two updates of the same
    record do not commute. *)
Example update_svg_shared_record :
  after (after two_rows (UpdateSvg [1%nat] (Some "<g/>"))) (UpdateSvg [1%nat] None)
  ≠ after (after two_rows (UpdateSvg [1%nat] None)) (UpdateSvg [1%nat] (Some "<g/>")).
Proof.
  intros Heq. apply (f_equal (λ e, svg_content <$> rows e !! 1%nat)) in Heq.
  vm_compute in Heq. discriminate.
Qed.

(** What a successful [create_svg] leaves: one row more, under the next
    id, holding the dimensions passed or their defaults. *)
Lemma create_svg_ok_shape env n sc w h bg env' rs :
  create_svg env n sc w h bg = Ok (env', rs) →
  ∃ r, env' = {| uid := uid env; now := now env;
                 rows := <[next_id env := r]> (rows env);
                 next_id := S (next_id env) |} ∧
       rs = [next_id env] ∧
       width r = default 800 w ∧ height r = default 600 h.
Proof.
  intros Hcall.
  destruct (create_svg_ok_inv _ _ _ _ _ _ _ Hcall) as (s & t & -> & -> & Hw & Hh).
  rewrite create_svg_row in Hcall by done. injection Hcall as <- <-.
  by eexists.
Qed.

Lemma ids_below_next_fresh env :
  ids_below_next env → rows env !! next_id env = None.
Proof.
  intros Hbelow. apply eq_None_not_Some. intros Hin%Hbelow. lia.
Qed.

Lemma ids_below_next_insert env r :
  ids_below_next env →
  ids_below_next {| uid := uid env; now := now env;
                    rows := <[next_id env := r]> (rows env);
                    next_id := S (next_id env) |}.
Proof.
  intros Hbelow i. simpl. rewrite lookup_insert_is_Some.
  intros [<-|[_ Hin%Hbelow]]; lia.
Qed.


(** X6: on a table whose ids all come from the id sequence, a successful
    [create_svg] returns an id that was not in use, adds exactly that one
    record and leaves every other record as it was. *)
Theorem create_svg_adds_one_record env n sc w h bg env' rs :
  ids_below_next env →
  create_svg env n sc w h bg = Ok (env', rs) →
  rs = [next_id env] ∧
  rows env !! next_id env = None ∧
  is_Some (rows env' !! next_id env) ∧
  (∀ i, i ≠ next_id env → rows env' !! i = rows env !! i) ∧
  size (rows env') = S (size (rows env)) ∧
  ids_below_next env'.
Proof.
  intros Hbelow (r & -> & -> & _)%create_svg_ok_shape.
  pose proof (ids_below_next_fresh env Hbelow) as Hfresh.
  split; [done|]. split; [done|]. simpl.
  split; [by rewrite lookup_insert_eq|].
  split; [intros i Hne; by rewrite lookup_insert_ne|].
  split; [by apply map_size_insert_None|].
  by apply ids_below_next_insert.
Qed.

Lemma two_rows_ids_below_next : ids_below_next two_rows.
Proof.
  intros i. unfold two_rows. simpl.
  rewrite lookup_insert_is_Some, lookup_singleton_is_Some.
  intros [<-|[_ <-]]; lia.
Qed.

Lemma create_svg_adds_one_record_witness :
  [3%nat] = [next_id two_rows] ∧
  rows two_rows !! next_id two_rows = None ∧
  is_Some (rows (after two_rows
                   (CreateSvg (Some (Some "banner")) (Some None) None None None))
           !! next_id two_rows) ∧
  (∀ i, i ≠ next_id two_rows →
        rows (after two_rows
                (CreateSvg (Some (Some "banner")) (Some None) None None None)) !! i
        = rows two_rows !! i) ∧
  size (rows (after two_rows
                (CreateSvg (Some (Some "banner")) (Some None) None None None)))
  = S (size (rows two_rows)) ∧
  ids_below_next
    (after two_rows (CreateSvg (Some (Some "banner")) (Some None) None None None)).
Proof.
  apply (create_svg_adds_one_record two_rows (Some (Some "banner")) (Some None)
           None None None).
  - apply two_rows_ids_below_next.
  - reflexivity.
Defined.



(** Closes the routine cases of a case analysis on the result of
    [create_svg]. *)
Local Ltac settle_result :=
  repeat split;
  try done;
  try (by intros [? ?]);
  try (by intros [?|?]);
  try (by intros [?|[?|[?|[?|?]]]]);
  try (by simplify_eq);
  try (by intros ? [= <-]);
  try (intros ? [= <-]; by (left + right));
  try (by eauto 10).

(** X8: how [create_svg] fails.  It fails exactly when the call leaves
    out [name] or [svg_content], or passes a null name, or has a width
    or height to store outside the 32-bit range of its column.  The
    failure is a [TypeError] exactly when a parameter is left out, and it
    then lists exactly the parameters left out; otherwise it is the
    not-null error on [name], for a null name, or the range error on
    [width] or [height], for a value out of range.  The content and the
    background color never cause a failure. *)
Theorem create_svg_failures env n sc w h bg :
  ((∃ e, create_svg env n sc w h bg = Err e)
   ↔ n = None ∨ sc = None ∨ n = Some None ∨
     in_int4 (default 800 w) = false ∨ in_int4 (default 600 h) = false) ∧
  ((∃ missing, create_svg env n sc w h bg = Err (TypeError missing))
   ↔ n = None ∨ sc = None) ∧
  (∀ missing, create_svg env n sc w h bg = Err (TypeError missing) →
     missing ≠ [] ∧
     ∀ p, p ∈ missing ↔ (p = "name" ∧ n = None) ∨ (p = "svg_content" ∧ sc = None)) ∧
  (∀ f, create_svg env n sc w h bg = Err (NotNullViolation f) →
     f = "name" ∧ n = Some None) ∧
  (∀ f, create_svg env n sc w h bg = Err (IntegerOutOfRange f) →
     (f = "width" ∧ in_int4 (default 800 w) = false) ∨
     (f = "height" ∧ in_int4 (default 600 h) = false)) ∧
  create_svg env n sc w h bg ≠ Err MissingError.
Proof.
  destruct n as [n|], sc as [t|].
  - destruct (in_int4 (default 800 w)) eqn:Hw;
      [destruct (in_int4 (default 600 h)) eqn:Hh; [destruct n as [s|]|]|].
    + rewrite create_svg_row by done. settle_result.
    + rewrite create_svg_null_name by done. settle_result.
    + rewrite create_svg_height_out_of_range by done. settle_result.
    + rewrite create_svg_width_out_of_range by done. settle_result.
  - cbn [create_svg]. settle_result; simplify_eq; rewrite list_elem_of_singleton.
    + intros ->. by right.
    + by intros [[_ [=]]|[-> _]].
  - cbn [create_svg]. settle_result; simplify_eq; rewrite list_elem_of_singleton.
    + intros ->. by left.
    + by intros [[-> _]|[_ [=]]].
  - cbn [create_svg].
    settle_result; simplify_eq; rewrite !elem_of_cons, elem_of_nil.
    + intros [->|[->|[]]]; [by left|by right].
    + intros [[-> _]|[-> _]]; [by left|by right; left].
Qed.

Lemma run_snoc env ks k : run env (ks ++ [k]) = after (run env ks) k.
Proof. unfold run. by rewrite foldl_app. Qed.



Lemma after_keeps_dims_positive env k :
  all_dims_positive env → stores_positive_dimensions k →
  all_dims_positive (after env k).
Proof.
  intros Hinv Hpos. destruct k as [n sc w h bg|self c].
  - simpl.
    destruct (create_svg env n sc w h bg) as [[env' rs]|e] eqn:Hcall; [|done].
    apply create_svg_ok_shape in Hcall as (r0 & -> & _ & Hw & Hh).
    intros i r. simpl. rewrite lookup_insert.
    case_decide; [|by apply Hinv].
    intros [= <-]. unfold dims_positive. by rewrite Hw, Hh.
  - by apply update_svg_keeps_dims_positive.
Qed.



(** X10: along every sequence of calls in which each [create_svg] stores
    positive dimensions (passed, or the defaults), a table whose records
    all have positive width and height keeps that property. *)
Theorem run_keeps_dims_positive env ks :
  all_dims_positive env →
  Forall stores_positive_dimensions ks →
  all_dims_positive (run env ks).
Proof.
  intros Hinv Hpos.
  induction ks as [|k ks IH] using rev_ind; [done|].
  apply Forall_app in Hpos as [Hks Hk].
  rewrite run_snoc. apply after_keeps_dims_positive; [by apply IH|].
  by inversion Hk.
Qed.

Lemma run_keeps_dims_positive_witness :
  all_dims_positive
    (run empty_env
       [CreateSvg (Some (Some "logo")) (Some None) None (Some 480) None;
        UpdateSvg [1%nat] (Some "<svg/>");
        CreateSvg None None (Some 5) (Some 5) None]).
Proof.
  apply (run_keeps_dims_positive empty_env
           [CreateSvg (Some (Some "logo")) (Some None) None (Some 480) None;
            UpdateSvg [1%nat] (Some "<svg/>");
            CreateSvg None None (Some 5) (Some 5) None]).
  - intros i r Hr. simpl in Hr. by rewrite lookup_empty in Hr.
  - repeat constructor; simpl; lia.
Defined.

End ModelCalls.
